(** * lib1.h : conditional compilation contract of the [lib1] recipe

    The repository fragment is one C header, [tests/e2e/recipes/lib1/lib1.h].
    Its behaviour is what the C preprocessor makes of it under the build
    switches [_WIN32], [IS_DLL], [PKGA_LIB] and [__cplusplus].  The header is
    embedded line by line as a value of type [list line], and a small
    preprocessor (object-like macros, [#ifdef]/[#else]/[#endif] groups,
    [#pragma once], [#include]) gives it its meaning: a token stream and a
    macro table. *)

From Stdlib Require Import ZArith.
From stdpp Require Import gmap strings list fin_maps pretty.

Local Open Scope string_scope.
Local Open Scope list_scope.
Local Open Scope nat_scope.

(** ** Preprocessing tokens *)

Inductive token :=
| Ident (s : string)
| Number (s : string)
| StrLit (s : string)
| Punct (s : string).

#[global] Instance token_eq_dec : EqDecision token.
Proof. solve_decision. Defined.

(** ** Lines of a source file *)

Inductive line :=
| DPragmaOnce
| DInclude (path : string)
| DIfdef (name : string)
| DIfndef (name : string)
| DElse
| DEndif
| DDefine (name : string) (body : list token)
| DUndef (name : string)
| DError (msg : list token)
| Text (toks : list token).

#[global] Instance line_eq_dec : EqDecision line.
Proof. solve_decision. Defined.

(** The header, one entry per source line (26 lines; a blank line is a text
    line without tokens). *)
Definition lib1_h : list line :=
  [ DPragmaOnce                                                  (*  1 *)
  ; Text []                                                      (*  2 *)
  ; DIfdef "__cplusplus"                                         (*  3 *)
  ; Text [Ident "extern"; StrLit "C"]                            (*  4 *)
  ; Text [Punct "{"]                                             (*  5 *)
  ; DEndif                                                       (*  6 *)
  ; Text []                                                      (*  7 *)
  ; DIfdef "_WIN32"                                              (*  8 *)
  ; DIfdef "IS_DLL"                                              (*  9 *)
  ; DIfdef "PKGA_LIB"                                            (* 10 *)
  ; DDefine "API"
      [Ident "__declspec"; Punct "("; Ident "dllexport"; Punct ")"] (* 11 *)
  ; DElse                                                        (* 12 *)
  ; DDefine "API"
      [Ident "__declspec"; Punct "("; Ident "dllimport"; Punct ")"] (* 13 *)
  ; DEndif                                                       (* 14 *)
  ; DElse                                                        (* 15 *)
  ; DDefine "API" []                                             (* 16 *)
  ; DEndif                                                       (* 17 *)
  ; DElse                                                        (* 18 *)
  ; DDefine "API" []                                             (* 19 *)
  ; DEndif                                                       (* 20 *)
  ; Text []                                                      (* 21 *)
  ; Text [Ident "API"; Ident "int"; Ident "func1"; Punct "(";
          Ident "int"; Ident "x"; Punct ")"; Punct ";"]          (* 22 *)
  ; Text []                                                      (* 23 *)
  ; DIfdef "__cplusplus"                                         (* 24 *)
  ; Text [Punct "}"]                                             (* 25 *)
  ; DEndif                                                       (* 26 *)
  ].

Definition lib1_path : string := "lib1.h".

(** Source lines [from] to [to] of the header (numbered from 1). *)
Definition header_lines (from to : nat) : list line :=
  take (S to - from) (drop (from - 1) lib1_h).

Definition linkage_open : list line := header_lines 3 6.
Definition api_block : list line := header_lines 8 20.
Definition declaration_line : list line := header_lines 22 22.
Definition linkage_close : list line := header_lines 24 26.

(** ** Results and errors of preprocessing *)

Inductive pp_error :=
| ElseWithoutIf
| ElseAfterElse
| EndifWithoutIf
| UnterminatedConditional
| MacroRedefined (name : string)
| ErrorDirectiveHit (msg : list token)
| IncludeNotFound (path : string)
| IncludeTooDeep.

Inductive result (A : Type) :=
| Ok (a : A)
| Err (e : pp_error).
Arguments Ok {A} a.
Arguments Err {A} e.

Definition rbind {A B} (r : result A) (k : A → result B) : result B :=
  match r with
  | Ok a => k a
  | Err e => Err e
  end.

Notation "'do' x <- r ; k" := (rbind r (fun x => k))
  (at level 10, x name, r at level 100, k at level 200).

Definition is_ok {A} (r : result A) : bool :=
  match r with Ok _ => true | Err _ => false end.

(** ** Preprocessor state *)

(** One open conditional group.  [live]: the lines of the current branch are
    processed; [enclosing]: the group that contains the conditional is live;
    [in_else]: the [#else] of this conditional has been seen. *)
Record cond := { live : bool; enclosing : bool; in_else : bool }.

(** Directives that changed the macro table, in the order they ran. *)
Inductive event :=
| EvDefine (name : string) (body : list token)
| EvUndef (name : string).

#[global] Instance event_eq_dec : EqDecision event.
Proof. solve_decision. Defined.

Record pp_state := {
  macros : gmap string (list token);
  once : gset string;
  conds : list cond;
  out : list token;
  log : list event
}.

Definition set_macros (m : gmap string (list token)) (st : pp_state) :=
  {| macros := m; once := once st; conds := conds st; out := out st;
     log := log st |}.
Definition set_once (o : gset string) (st : pp_state) :=
  {| macros := macros st; once := o; conds := conds st; out := out st;
     log := log st |}.
Definition set_conds (c : list cond) (st : pp_state) :=
  {| macros := macros st; once := once st; conds := c; out := out st;
     log := log st |}.
Definition emit (ts : list token) (st : pp_state) :=
  {| macros := macros st; once := once st; conds := conds st;
     out := out st ++ ts; log := log st |}.
Definition record_event (e : event) (st : pp_state) :=
  {| macros := macros st; once := once st; conds := conds st; out := out st;
     log := log st ++ [e] |}.

Definition initial_state (predef : gmap string (list token)) : pp_state :=
  {| macros := predef; once := ∅; conds := []; out := []; log := [] |}.

(** The innermost open group is live (at top level: always). *)
Definition cur_live (st : pp_state) : bool :=
  match conds st with
  | [] => true
  | c :: _ => live c
  end.

Definition is_defined (env : gmap string (list token)) (name : string)
  : bool :=
  bool_decide (is_Some (env !! name)).

Definition defined (name : string) (st : pp_state) : bool :=
  is_defined (macros st) name.

(** ** Macro replacement

    An identifier that names a macro is replaced by the macro's replacement
    list, which is rescanned with that macro disabled.  Every nested
    replacement removes one name from the table, so [size env] levels of
    rescanning are always enough. *)
Fixpoint expand_tok (fuel : nat) (env : gmap string (list token)) (t : token)
  : list token :=
  match t with
  | Ident n =>
      match env !! n, fuel with
      | Some body, S fuel' =>
          flat_map (expand_tok fuel' (delete n env)) body
      | _, _ => [t]
      end
  | _ => [t]
  end.

Definition expand (env : gmap string (list token)) (ts : list token)
  : list token :=
  flat_map (expand_tok (size env) env) ts.

(** ** Directives *)

Definition push_cond (c : bool) (st : pp_state) : pp_state :=
  set_conds ({| live := cur_live st && c; enclosing := cur_live st;
                in_else := false |} :: conds st) st.

Definition do_else (st : pp_state) : result pp_state :=
  match conds st with
  | [] => Err ElseWithoutIf
  | c :: cs =>
      if in_else c then Err ElseAfterElse
      else Ok (set_conds ({| live := enclosing c && negb (live c);
                             enclosing := enclosing c;
                             in_else := true |} :: cs) st)
  end.

Definition do_endif (st : pp_state) : result pp_state :=
  match conds st with
  | [] => Err EndifWithoutIf
  | _ :: cs => Ok (set_conds cs st)
  end.

(** An object-like macro may be defined again only with the same
    replacement list. *)
Definition do_define (name : string) (body : list token) (st : pp_state)
  : result pp_state :=
  match macros st !! name with
  | Some old =>
      if decide (old = body) then Ok (record_event (EvDefine name body) st)
      else Err (MacroRedefined name)
  | None =>
      Ok (record_event (EvDefine name body)
            (set_macros (<[name := body]> (macros st)) st))
  end.

Definition do_undef (name : string) (st : pp_state) : pp_state :=
  record_event (EvUndef name) (set_macros (delete name (macros st)) st).

(** One line of the file [self]; [inc] processes an included file. *)
Definition step (inc : string → pp_state → result pp_state) (self : string)
    (l : line) (st : pp_state) : result pp_state :=
  match l with
  | DIfdef n => Ok (push_cond (defined n st) st)
  | DIfndef n => Ok (push_cond (negb (defined n st)) st)
  | DElse => do_else st
  | DEndif => do_endif st
  | _ =>
      if cur_live st then
        match l with
        | DPragmaOnce => Ok (set_once ({[self]} ∪ once st) st)
        | DInclude p => inc p st
        | DDefine n body => do_define n body st
        | DUndef n => Ok (do_undef n st)
        | DError msg => Err (ErrorDirectiveHit msg)
        | Text ts => Ok (emit (expand (macros st) ts) st)
        | _ => Ok st
        end
      else Ok st
  end.

Fixpoint run_lines (inc : string → pp_state → result pp_state)
    (self : string) (ls : list line) (st : pp_state) : result pp_state :=
  match ls with
  | [] => Ok st
  | l :: rest => do st' <- step inc self l st; run_lines inc self rest st'
  end.

(** A file is processed with its own stack of conditionals, which must be
    closed when the file ends.  A file marked by [#pragma once] is skipped
    when it is included again.  [depth] bounds the nesting of includes. *)
Fixpoint pp_file (depth : nat) (fs : gmap string (list line)) (path : string)
    (st : pp_state) : result pp_state :=
  match depth with
  | O => Err IncludeTooDeep
  | S d =>
      if decide (path ∈ once st) then Ok st
      else
        match fs !! path with
        | None => Err (IncludeNotFound path)
        | Some ls =>
            do st' <- run_lines (pp_file d fs) path ls (set_conds [] st);
            match conds st' with
            | [] => Ok (set_conds (conds st) st')
            | _ :: _ => Err UnterminatedConditional
            end
        end
  end.

Definition max_include_depth : nat := 200.

Definition preprocess (fs : gmap string (list line))
    (predef : gmap string (list token)) (main : string) : result pp_state :=
  pp_file max_include_depth fs main (initial_state predef).

(** ** The build switches *)

Record switches := {
  sw_win32 : bool;       (* _WIN32 *)
  sw_is_dll : bool;      (* IS_DLL *)
  sw_pkga_lib : bool;    (* PKGA_LIB *)
  sw_cplusplus : bool    (* __cplusplus *)
}.

#[global] Instance switches_eq_dec : EqDecision switches.
Proof. solve_decision. Defined.

Definition predefine (on : bool) (name : string) (body : list token)
    (env : gmap string (list token)) : gmap string (list token) :=
  if on then <[name := body]> env else env.

(** The macro table before the first line: a switch that is on is a macro
    (as [-DNAME] or the compiler defines it), a switch that is off is not
    defined. *)
Definition predefined (sw : switches) : gmap string (list token) :=
  predefine (sw_win32 sw) "_WIN32" [Number "1"]
    (predefine (sw_is_dll sw) "IS_DLL" [Number "1"]
       (predefine (sw_pkga_lib sw) "PKGA_LIB" [Number "1"]
          (predefine (sw_cplusplus sw) "__cplusplus" [Number "201703L"] ∅))).

Definition files : gmap string (list line) := {[ lib1_path := lib1_h ]}.

Definition pp_header (sw : switches) : result pp_state :=
  preprocess files (predefined sw) lib1_path.

Definition all_switches : list switches :=
  w ← [false; true]; d ← [false; true]; p ← [false; true];
  c ← [false; true];
  [ {| sw_win32 := w; sw_is_dll := d; sw_pkga_lib := p; sw_cplusplus := c |} ].

(** A translation unit that includes the header: the file [main_path] with
    the lines [tu]. *)
Definition main_path : string := "main.c".

Definition preprocess_tu (tu : list line) (sw : switches) : result pp_state :=
  preprocess (<[main_path := tu]> files) (predefined sw) main_path.

Definition include_once : list line := [DInclude lib1_path].
Definition include_twice : list line := [DInclude lib1_path; DInclude lib1_path].

(** ** What the compiler proper reads from the token stream

    The declarations of a translation unit, as far as the header needs them:
    prototypes [attr? type name ( type name , ... ) ;], at top level or
    inside [extern "C" { ... }] linkage blocks (C++ only). *)

Inductive visibility := VisExport | VisImport | VisDefault.
Inductive linkage := LinkC | LinkCxx.
Inductive ctype := CVoid | CChar | CShort | CInt | CLong | CUnsigned.

#[global] Instance visibility_eq_dec : EqDecision visibility.
Proof. solve_decision. Defined.
#[global] Instance linkage_eq_dec : EqDecision linkage.
Proof. solve_decision. Defined.
#[global] Instance ctype_eq_dec : EqDecision ctype.
Proof. solve_decision. Defined.

Record fun_decl := {
  fd_vis : visibility;
  fd_linkage : linkage;
  fd_ret : ctype;
  fd_name : string;
  fd_params : list (ctype * string)
}.

Definition type_of_keyword (s : string) : option ctype :=
  if decide (s = "void") then Some CVoid
  else if decide (s = "char") then Some CChar
  else if decide (s = "short") then Some CShort
  else if decide (s = "int") then Some CInt
  else if decide (s = "long") then Some CLong
  else if decide (s = "unsigned") then Some CUnsigned
  else None.

Definition dllexport_attr : list token :=
  [Ident "__declspec"; Punct "("; Ident "dllexport"; Punct ")"].
Definition dllimport_attr : list token :=
  [Ident "__declspec"; Punct "("; Ident "dllimport"; Punct ")"].

Definition parse_attr (ts : list token) : visibility * list token :=
  match ts with
  | Ident d :: Punct l :: Ident a :: Punct r :: rest =>
      if decide (d = "__declspec" ∧ l = "(" ∧ r = ")") then
        if decide (a = "dllexport") then (VisExport, rest)
        else if decide (a = "dllimport") then (VisImport, rest)
        else (VisDefault, ts)
      else (VisDefault, ts)
  | _ => (VisDefault, ts)
  end.

Fixpoint parse_params (ts : list token)
  : option (list (ctype * string) * list token) :=
  match ts with
  | Ident ty :: Ident x :: Punct p :: rest =>
      match type_of_keyword ty with
      | Some cty =>
          if decide (p = ")") then Some ([(cty, x)], rest)
          else if decide (p = ",") then
            match parse_params rest with
            | Some (ps, rest') => Some ((cty, x) :: ps, rest')
            | None => None
            end
          else None
      | None => None
      end
  | _ => None
  end.

Definition parse_decl (lk : linkage) (ts : list token)
  : option (fun_decl * list token) :=
  let '(vis, ts1) := parse_attr ts in
  match ts1 with
  | Ident ty :: Ident name :: Punct l :: rest =>
      match type_of_keyword ty, parse_params rest with
      | Some ret, Some (ps, Punct e :: rest') =>
          if decide (l = "(" ∧ e = ";") then
            Some ({| fd_vis := vis; fd_linkage := lk; fd_ret := ret;
                     fd_name := name; fd_params := ps |}, rest')
          else None
      | _, _ => None
      end
  | _ => None
  end.

(** Declarations up to the closing brace of a linkage block. *)
Fixpoint parse_block (fuel : nat) (ts : list token)
  : option (list fun_decl * list token) :=
  match fuel with
  | O => None
  | S fuel' =>
      match ts with
      | Punct p :: rest =>
          if decide (p = "}") then Some ([], rest) else None
      | _ =>
          match parse_decl LinkC ts with
          | Some (d, rest) =>
              match parse_block fuel' rest with
              | Some (ds, rest') => Some (d :: ds, rest')
              | None => None
              end
          | None => None
          end
      end
  end.

Definition opens_extern_c (ts : list token) : option (list token) :=
  match ts with
  | Ident e :: StrLit c :: Punct b :: rest =>
      if decide (e = "extern" ∧ c = "C" ∧ b = "{") then Some rest else None
  | _ => None
  end.

(** The items of a translation unit; [cxx]: it is compiled as C++.  In C a
    linkage specification is a syntax error and every function has C
    linkage; in C++ a function outside a linkage block has C++ linkage. *)
Fixpoint parse_items (fuel : nat) (cxx : bool) (ts : list token)
  : option (list fun_decl) :=
  match fuel with
  | O => None
  | S fuel' =>
      match ts with
      | [] => Some []
      | _ =>
          match opens_extern_c ts with
          | Some inner =>
              if cxx then
                match parse_block fuel' inner with
                | Some (ds, rest) =>
                    match parse_items fuel' cxx rest with
                    | Some ds' => Some (ds ++ ds')
                    | None => None
                    end
                | None => None
                end
              else None
          | None =>
              match parse_decl (if cxx then LinkCxx else LinkC) ts with
              | Some (d, rest) =>
                  match parse_items fuel' cxx rest with
                  | Some ds => Some (d :: ds)
                  | None => None
                  end
              | None => None
              end
          end
      end
  end.

(** Every item consumes a token, so [S (length ts)] rounds are enough. *)
Definition parse_tu (cxx : bool) (ts : list token) : option (list fun_decl) :=
  parse_items (S (length ts)) cxx ts.

(** The declarations a translation unit under the switches [sw] sees after
    preprocessing [tu]. *)
Definition declarations (tu : list line) (sw : switches)
  : option (list fun_decl) :=
  match preprocess_tu tu sw with
  | Ok st => parse_tu (sw_cplusplus sw) (out st)
  | Err _ => None
  end.

Definition header_declarations (sw : switches) : option (list fun_decl) :=
  match pp_header sw with
  | Ok st => parse_tu (sw_cplusplus sw) (out st)
  | Err _ => None
  end.

(** ** Symbols and linking *)

Definition mangle_type (t : ctype) : string :=
  match t with
  | CVoid => "v" | CChar => "c" | CShort => "s"
  | CInt => "i" | CLong => "l" | CUnsigned => "j"
  end.

(** The name the linker sees: the plain name under C linkage, the Itanium
    C++ ABI encoding [_Z<len><name><parameter types>] under C++ linkage.
    The export or import attribute is not part of the name. *)
Definition link_symbol (d : fun_decl) : string :=
  match fd_linkage d with
  | LinkC => fd_name d
  | LinkCxx =>
      "_Z" +:+ pretty (String.length (fd_name d)) +:+ fd_name d
        +:+ foldr (fun p acc => mangle_type p.1 +:+ acc) "" (fd_params d)
  end.

(** Values of type [int]: 32 bits, two's complement. *)
Definition int_min : Z := - 2 ^ 31.
Definition int_max : Z := 2 ^ 31 - 1.
Definition in_int (z : Z) : bool := (int_min <=? z)%Z && (z <=? int_max)%Z.

(** A compiled function of one [int] argument; [None] is undefined
    behaviour.  An object file maps the symbols it defines to their code. *)
Definition cfun := Z → option Z.

(** Modelled from the spec: the implementation of [func1] is not part of
    the fragment; the end-to-end scenario of the spec links against
    [int func1(int x) { return x + 1; }].  Signed overflow is undefined. *)
Definition func1_impl : cfun :=
  fun x => if in_int (x + 1)%Z then Some (x + 1)%Z else None.

(** A call [name(arg)] in a translation unit with the declarations [ds],
    linked against [obj]: the name must be declared with one [int]
    parameter and [int] result, and its symbol must be defined. *)
Definition call (ds : list fun_decl) (obj : gmap string cfun)
    (name : string) (arg : Z) : option Z :=
  match list_find (fun d => fd_name d = name) ds with
  | Some (_, d) =>
      if decide (fd_ret d = CInt ∧ (fd_params d).*1 = [CInt]) then
        if in_int arg then
          match obj !! link_symbol d with
          | Some f => f arg
          | None => None
          end
        else None
      else None
  | None => None
  end.

(** The scenario of the spec: include the header, call [func1(arg)]. *)
Definition call_func1 (sw : switches) (obj : gmap string cfun) (arg : Z)
  : option Z :=
  match declarations include_once sw with
  | Some ds => call ds obj "func1" arg
  | None => None
  end.

(** ** The contract, as the spec's matrix states it

    Platform, shared build, defining the library: resulting visibility. *)
Definition visibility_matrix (windows shared defining : bool) : visibility :=
  match windows, shared, defining with
  | true, true, true => VisExport
  | true, true, false => VisImport
  | true, false, _ => VisDefault
  | false, _, _ => VisDefault
  end.

Definition attr_tokens (v : visibility) : list token :=
  match v with
  | VisExport => dllexport_attr
  | VisImport => dllimport_attr
  | VisDefault => []
  end.

Definition prototype_tokens : list token :=
  [Ident "int"; Ident "func1"; Punct "("; Ident "int"; Ident "x"; Punct ")";
   Punct ";"].

Definition header_tokens (cxx : bool) (v : visibility) : list token :=
  ((if cxx then [Ident "extern"; StrLit "C"; Punct "{"] else [])
   ++ attr_tokens v ++ prototype_tokens
   ++ (if cxx then [Punct "}"] else []))%list.

(** A token that macro replacement leaves alone. *)
Definition plain (env : gmap string (list token)) (t : token) : Prop :=
  match t with
  | Ident n => env !! n = None
  | _ => True
  end.

(** Identifiers the header writes in its text and replacement lists. *)
Definition header_idents : list string :=
  ["extern"; "int"; "func1"; "x"; "__declspec"; "dllexport"; "dllimport"].

(** A macro table the header can be read under: [API] is not defined yet and
    none of the header's own identifiers is a macro. *)
Definition clean (env : gmap string (list token)) : Prop :=
  env !! "API" = None ∧ Forall (fun n => env !! n = None) header_idents.

Definition chosen_visibility (env : gmap string (list token)) : visibility :=
  visibility_matrix (is_defined env "_WIN32") (is_defined env "IS_DLL")
    (is_defined env "PKGA_LIB").

(** The state after the header has been read as the file [self]. *)
Definition after_header (self : string) (st : pp_state) : pp_state :=
  let v := chosen_visibility (macros st) in
  {| macros := <["API" := attr_tokens v]> (macros st);
     once := {[self]} ∪ once st;
     conds := conds st;
     out := out st ++ header_tokens (is_defined (macros st) "__cplusplus") v;
     log := log st ++ [EvDefine "API" (attr_tokens v)] |}.

(** ** What is observed of a run *)

Definition api_macro (sw : switches) : option (list token) :=
  match pp_header sw with
  | Ok st => macros st !! "API"
  | Err _ => None
  end.

Definition header_output (sw : switches) : option (list token) :=
  match pp_header sw with
  | Ok st => Some (out st)
  | Err _ => None
  end.

(** The output opens with a linkage specification. *)
Definition linkage_block_present (sw : switches) : option bool :=
  match header_output sw with
  | Some ts => Some (bool_decide (is_Some (opens_extern_c ts)))
  | None => None
  end.

(** Braces are matched: no closing brace without an open one, none left
    open at the end. *)
Fixpoint braces_matched (depth : nat) (ts : list token) : bool :=
  match ts with
  | [] => bool_decide (depth = 0)
  | Punct p :: rest =>
      if decide (p = "{") then braces_matched (S depth) rest
      else if decide (p = "}") then
        match depth with
        | O => false
        | S d => braces_matched d rest
        end
      else braces_matched depth rest
  | _ :: rest => braces_matched depth rest
  end.

Definition is_define_of (name : string) (e : event) : bool :=
  match e with
  | EvDefine n _ => bool_decide (n = name)
  | EvUndef _ => false
  end.

Definition is_undef_of (name : string) (e : event) : bool :=
  match e with
  | EvDefine _ _ => false
  | EvUndef n => bool_decide (n = name)
  end.

Definition is_error_line (l : line) : bool :=
  match l with DError _ => true | _ => false end.

Definition is_undef_line (name : string) (l : line) : bool :=
  match l with DUndef n => bool_decide (n = name) | _ => false end.

(** The prototype the header declares, as the compiler proper records it. *)
Definition func1_decl (v : visibility) : fun_decl :=
  {| fd_vis := v; fd_linkage := LinkC; fd_ret := CInt; fd_name := "func1";
     fd_params := [(CInt, "x")] |}.

Definition switch_visibility (sw : switches) : visibility :=
  visibility_matrix (sw_win32 sw) (sw_is_dll sw) (sw_pkga_lib sw).

Definition declared_visibility (sw : switches) : option (list visibility) :=
  map fd_vis <$> header_declarations sw.

Definition count_defines (name : string) (l : list event) : nat :=
  length (List.filter (is_define_of name) l).

(** The header without its first line, to see what [#pragma once] is for. *)
Definition lib1_h_unguarded : list line := tail lib1_h.

(** The state every run of the header ends in. *)
Definition header_state (sw : switches) : pp_state :=
  {| macros := <["API" := attr_tokens (switch_visibility sw)]> (predefined sw);
     once := {[lib1_path]};
     conds := [];
     out := header_tokens (sw_cplusplus sw) (switch_visibility sw);
     log := [EvDefine "API" (attr_tokens (switch_visibility sw))] |}.

(** ** The header under an arbitrary macro table *)

(** No identifier of the header's text is a macro. *)
Definition header_idents_free (env : gmap string (list token)) : Prop :=
  Forall (fun n => env !! n = None) header_idents.

(** Preprocessing the header with the macros [env] predefined. *)
Definition pp_header_in (env : gmap string (list token)) : result pp_state :=
  preprocess files env lib1_path.

(** What reading the header's lines amounts to in a live group: mark the
    file, open the linkage block, define [API], emit the declaration, close
    the linkage block. *)
Definition header_effect (self : string) (st : pp_state) : result pp_state :=
  let st1 :=
    emit (if defined "__cplusplus" st
          then expand (macros st) [Ident "extern"; StrLit "C"]
               ++ expand (macros st) [Punct "{"]
          else [])
      (set_once ({[self]} ∪ once st) st) in
  do st2 <- do_define "API" (attr_tokens (chosen_visibility (macros st))) st1;
  Ok (emit (expand (macros st2) (Ident "API" :: prototype_tokens)
            ++ (if defined "__cplusplus" st2
                then expand (macros st2) [Punct "}"] else []))
        st2).

(** The state the header leaves when read under the clean table [env]. *)
Definition header_state_in (env : gmap string (list token)) : pp_state :=
  {| macros := <["API" := attr_tokens (chosen_visibility env)]> env;
     once := {[lib1_path]};
     conds := [];
     out := header_tokens (is_defined env "__cplusplus")
              (chosen_visibility env);
     log := [EvDefine "API" (attr_tokens (chosen_visibility env))] |}.

(** A translation unit that includes the header [n] times. *)
Definition repeated_includes (n : nat) : list line :=
  replicate n (DInclude lib1_path).

(** Lines 2 to 26 stored as the header, included twice. *)
Definition unguarded_twice (sw : switches) : result pp_state :=
  preprocess (<[lib1_path := lib1_h_unguarded]>
                (<[main_path := include_twice]> ∅))
    (predefined sw) main_path.

(** Macro tables to try the header under. *)
Definition table_is_dll_zero : gmap string (list token) :=
  <["_WIN32" := []]> (<["IS_DLL" := [Number "0"]]>
                        (<["NDEBUG" := [Number "1"]]> ∅)).

Definition table_cplusplus98 : gmap string (list token) :=
  <["__cplusplus" := [Number "199711L"]]> (<["VERSION" := [Number "3"]]> ∅).

Definition table_api_empty : gmap string (list token) :=
  <["API" := []]> (<["IS_DLL" := [Number "1"]]> ∅).

(** * Properties *)

(** ** The result monad and line sequencing *)

Lemma rbind_ok {A B} (r : result A) (k : A → result B) (b : B) :
  rbind r k = Ok b ↔ ∃ a, r = Ok a ∧ k a = Ok b.
Proof.
  destruct r as [a|e]; simpl; split.
  - eauto.
  - intros (a' & [= <-] & Hk). exact Hk.
  - discriminate.
  - intros (a' & [=] & _).
Qed.

Lemma run_lines_app inc self (l1 l2 : list line) st :
  run_lines inc self (l1 ++ l2) st
  = rbind (run_lines inc self l1 st) (run_lines inc self l2).
Proof.
  revert st. induction l1 as [|l l1 IH]; intros st; simpl; [done|].
  destruct (step inc self l st) as [st'|e]; simpl; [apply IH | done].
Qed.

Lemma lib1_h_segments :
  lib1_h = [DPragmaOnce; Text []] ++ linkage_open ++ [Text []] ++ api_block
           ++ [Text []] ++ declaration_line ++ [Text []] ++ linkage_close.
Proof. reflexivity. Qed.

(** ** Macro replacement *)

Lemma expand_tok_fuel f1 f2 (env : gmap string (list token)) t :
  size env ≤ f1 → size env ≤ f2 → expand_tok f1 env t = expand_tok f2 env t.
Proof.
  revert f2 env t. induction f1 as [|f1 IH]; intros f2 env t H1 H2.
  - assert (env = ∅) as -> by (apply map_size_empty_iff; lia).
    by destruct t, f2.
  - destruct t as [n| | |]; try (by destruct f2).
    simpl. destruct (env !! n) as [body|] eqn:Hn;
      [|by destruct f2; simpl; rewrite Hn].
    assert (size env = S (size (delete n env))) as Hsz.
    { rewrite <- (insert_delete_id env n body Hn) at 1.
      apply map_size_insert_None, lookup_delete_eq. }
    destruct f2 as [|f2]; [lia|]. simpl. rewrite Hn. clear Hn.
    induction body as [|b body IHb]; simpl; [done|].
    f_equal; [apply IH; lia | apply IHb].
Qed.

Lemma expand_tok_macro (env : gmap string (list token)) n body :
  env !! n = Some body →
  expand_tok (size env) env (Ident n) = expand (delete n env) body.
Proof.
  intros Hn.
  assert (size env = S (size (delete n env))) as ->.
  { rewrite <- (insert_delete_id env n body Hn) at 1.
    apply map_size_insert_None, lookup_delete_eq. }
  simpl. by rewrite Hn.
Qed.

Lemma expand_tok_plain f (env : gmap string (list token)) t :
  plain env t → expand_tok f env t = [t].
Proof. destruct t, f; simpl; try done; by intros ->. Qed.

Lemma expand_plain (env : gmap string (list token)) ts :
  Forall (plain env) ts → expand env ts = ts.
Proof.
  unfold expand. induction 1 as [|t ts Ht _ IH]; simpl; [done|].
  by rewrite expand_tok_plain, IH.
Qed.

Lemma expand_cons (env : gmap string (list token)) t ts :
  expand env (t :: ts) = expand_tok (size env) env t ++ expand env ts.
Proof. reflexivity. Qed.

Lemma clean_lookup env n : clean env → n ∈ header_idents → env !! n = None.
Proof.
  intros [_ H] Hn. rewrite Forall_forall in H. by apply H.
Qed.

Lemma attr_tokens_plain env v : clean env → Forall (plain env) (attr_tokens v).
Proof.
  intros Hc.
  destruct v; repeat constructor; simpl; apply (clean_lookup _ _ Hc);
    unfold header_idents; set_solver.
Qed.

Lemma prototype_tokens_plain env body :
  clean env → Forall (plain (<["API" := body]> env)) prototype_tokens.
Proof.
  intros Hc.
  repeat constructor; simpl; rewrite lookup_insert_ne by done;
    apply (clean_lookup _ _ Hc); unfold header_idents; set_solver.
Qed.

(** The declaration line under the table the API block leaves behind. *)
Lemma expand_declaration env v :
  clean env →
  expand (<["API" := attr_tokens v]> env) (Ident "API" :: prototype_tokens)
  = attr_tokens v ++ prototype_tokens.
Proof.
  intros Hc. rewrite expand_cons.
  rewrite (expand_tok_macro _ "API" (attr_tokens v))
    by apply lookup_insert_eq.
  rewrite delete_insert_id by apply Hc.
  rewrite expand_plain by by apply attr_tokens_plain.
  by rewrite expand_plain by by apply prototype_tokens_plain.
Qed.

(** ** Reading the header, segment by segment *)

Ltac plain_tokens Hc :=
  repeat constructor; simpl; try apply (clean_lookup _ _ Hc);
  unfold header_idents; set_solver.

(** Run the preprocessor symbolically, leaving the macro table alone. *)
Ltac pp_simpl :=
  cbv [run_lines step rbind push_cond do_else do_endif do_define do_undef
       cur_live defined emit set_conds set_macros set_once record_event
       macros once conds out log live enclosing in_else andb negb].

Ltac same_state := pp_simpl; rewrite <- ?app_assoc, ?app_nil_r; reflexivity.

Lemma linkage_open_run inc self st :
  cur_live st = true → clean (macros st) →
  run_lines inc self linkage_open st
  = Ok (emit (if defined "__cplusplus" st
              then [Ident "extern"; StrLit "C"; Punct "{"] else []) st).
Proof.
  intros Hl Hc. destruct st as [m o cs ou lg].
  change linkage_open with
    [DIfdef "__cplusplus"; Text [Ident "extern"; StrLit "C"];
     Text [Punct "{"]; DEndif].
  destruct cs as [|[lv en ie] cs]; cbn in Hl; cbn [macros] in Hc; subst; pp_simpl;
    destruct (is_defined m "__cplusplus"); pp_simpl.
  all: rewrite ?expand_plain by plain_tokens Hc; same_state.
Qed.

Lemma linkage_close_run inc self st :
  cur_live st = true →
  run_lines inc self linkage_close st
  = Ok (emit (if defined "__cplusplus" st then [Punct "}"] else []) st).
Proof.
  intros Hl. destruct st as [m o cs ou lg].
  change linkage_close with [DIfdef "__cplusplus"; Text [Punct "}"]; DEndif].
  destruct cs as [|[lv en ie] cs]; cbn in Hl; subst; pp_simpl;
    destruct (is_defined m "__cplusplus"); pp_simpl;
    rewrite ?expand_plain by (by repeat constructor); same_state.
Qed.

Lemma api_block_run inc self st :
  cur_live st = true → macros st !! "API" = None →
  run_lines inc self api_block st
  = Ok (record_event
          (EvDefine "API" (attr_tokens (chosen_visibility (macros st))))
          (set_macros
             (<["API" := attr_tokens (chosen_visibility (macros st))]>
                (macros st)) st)).
Proof.
  intros Hl Hapi. destruct st as [m o cs ou lg].
  change api_block with
    [DIfdef "_WIN32"; DIfdef "IS_DLL"; DIfdef "PKGA_LIB";
     DDefine "API" dllexport_attr; DElse; DDefine "API" dllimport_attr;
     DEndif; DElse; DDefine "API" []; DEndif; DElse; DDefine "API" [];
     DEndif].
  unfold chosen_visibility.
  destruct cs as [|[lv en ie] cs]; cbn in Hl; cbn [macros] in Hapi; subst; pp_simpl;
    destruct (is_defined m "_WIN32"), (is_defined m "IS_DLL"),
      (is_defined m "PKGA_LIB"); pp_simpl; rewrite Hapi; same_state.
Qed.

Lemma prologue_run inc self st :
  cur_live st = true →
  run_lines inc self [DPragmaOnce; Text []] st
  = Ok (set_once ({[self]} ∪ once st) st).
Proof.
  intros Hl. destruct st as [m o [|[lv en ie] cs] ou lg]; cbn in Hl; subst;
    pp_simpl; rewrite expand_plain by constructor; same_state.
Qed.

Lemma blank_run inc self st :
  cur_live st = true → run_lines inc self [Text []] st = Ok st.
Proof.
  intros Hl. destruct st as [m o [|[lv en ie] cs] ou lg]; cbn in Hl; subst;
    pp_simpl; rewrite expand_plain by constructor; same_state.
Qed.

Lemma declaration_run inc self st env v :
  cur_live st = true → clean env →
  macros st = <["API" := attr_tokens v]> env →
  run_lines inc self declaration_line st
  = Ok (emit (attr_tokens v ++ prototype_tokens) st).
Proof.
  intros Hl Hc Hm. destruct st as [m o cs ou lg]. cbn [macros] in Hm. subst m.
  change declaration_line with [Text (Ident "API" :: prototype_tokens)].
  destruct cs as [|[lv en ie] cs]; cbn in Hl; subst; pp_simpl;
    by rewrite expand_declaration.
Qed.

Lemma is_defined_insert_ne (env : gmap string (list token)) n k body :
  n ≠ k → is_defined (<[n := body]> env) k = is_defined env k.
Proof. intros Hne. unfold is_defined. by rewrite lookup_insert_ne. Qed.

(** Reading the whole header from a live state under a clean macro table. *)
Theorem lib1_h_run inc self st :
  cur_live st = true → clean (macros st) →
  run_lines inc self lib1_h st = Ok (after_header self st).
Proof.
  intros Hl Hc. rewrite lib1_h_segments.
  rewrite run_lines_app, prologue_run by done. cbn [rbind].
  rewrite run_lines_app, linkage_open_run by done. cbn [rbind].
  rewrite run_lines_app, blank_run by done. cbn [rbind].
  rewrite run_lines_app, api_block_run by (done || apply Hc). cbn [rbind].
  rewrite run_lines_app, blank_run by done. cbn [rbind].
  rewrite run_lines_app,
    (declaration_run _ _ _ (macros st) (chosen_visibility (macros st)))
    by done.
  cbn [rbind].
  rewrite run_lines_app, blank_run by done. cbn [rbind].
  rewrite linkage_close_run by done.
  unfold after_header, header_tokens, defined.
  destruct st as [m o cs ou lg]. pp_simpl.
  rewrite is_defined_insert_ne by done.
  destruct (is_defined m "__cplusplus"); by rewrite <- ?app_assoc, ?app_nil_r.
Qed.

(** Including the header from any file, at any permitted depth. *)
Theorem include_lib1_h d fs path st :
  fs !! path = Some lib1_h → path ∉ once st → clean (macros st) →
  pp_file (S d) fs path st = Ok (after_header path st).
Proof.
  intros Hf Ho Hc. cbn [pp_file]. rewrite decide_False by done.
  rewrite Hf, lib1_h_run by done. by destruct st.
Qed.

(** A file that was marked by [#pragma once] is skipped. *)
Lemma include_again d fs path st :
  path ∈ once st → pp_file (S d) fs path st = Ok st.
Proof. intros Ho. cbn [pp_file]. by rewrite decide_True. Qed.

(** ** The macro table of the build switches *)

Lemma lookup_predefine on n body (env : gmap string (list token)) k :
  predefine on n body env !! k
  = if on && bool_decide (n = k) then Some body else env !! k.
Proof.
  destruct on; simpl; [|done]. case_bool_decide as Hk.
  - subst. apply lookup_insert_eq.
  - by apply lookup_insert_ne.
Qed.

Lemma lookup_predefined sw k :
  predefined sw !! k
  = if sw_win32 sw && bool_decide ("_WIN32" = k) then Some [Number "1"]
    else if sw_is_dll sw && bool_decide ("IS_DLL" = k) then Some [Number "1"]
    else if sw_pkga_lib sw && bool_decide ("PKGA_LIB" = k)
         then Some [Number "1"]
    else if sw_cplusplus sw && bool_decide ("__cplusplus" = k)
         then Some [Number "201703L"]
    else None.
Proof.
  unfold predefined. rewrite !lookup_predefine.
  repeat (destruct (_ && _); [done|]). apply lookup_empty.
Qed.

(** A name that is none of the four switches is not predefined. *)
Lemma predefined_other sw k :
  k ∉ ["_WIN32"; "IS_DLL"; "PKGA_LIB"; "__cplusplus"] →
  predefined sw !! k = None.
Proof.
  intros Hk. rewrite lookup_predefined.
  repeat (rewrite (bool_decide_eq_false_2 (_ = k)) by set_solver).
  by rewrite !andb_false_r.
Qed.

Lemma clean_predefined sw : clean (predefined sw).
Proof.
  split; [by apply predefined_other; compute_done|].
  unfold header_idents.
  repeat (constructor; [by apply predefined_other; compute_done|]).
  constructor.
Qed.

Lemma is_defined_predefined sw :
  is_defined (predefined sw) "_WIN32" = sw_win32 sw
  ∧ is_defined (predefined sw) "IS_DLL" = sw_is_dll sw
  ∧ is_defined (predefined sw) "PKGA_LIB" = sw_pkga_lib sw
  ∧ is_defined (predefined sw) "__cplusplus" = sw_cplusplus sw.
Proof.
  unfold is_defined. rewrite !lookup_predefined.
  by destruct sw as [[] [] [] []].
Qed.

Lemma chosen_visibility_predefined sw :
  chosen_visibility (predefined sw) = switch_visibility sw.
Proof.
  unfold chosen_visibility, switch_visibility.
  destruct (is_defined_predefined sw) as (-> & -> & -> & _). done.
Qed.

(** ** The header under the build switches *)

Lemma after_header_initial sw :
  after_header lib1_path (initial_state (predefined sw)) = header_state sw.
Proof.
  unfold after_header, initial_state, header_state.
  cbn [macros once conds out log].
  rewrite chosen_visibility_predefined.
  destruct (is_defined_predefined sw) as (_ & _ & _ & ->).
  by rewrite (right_id_L ∅ (∪)).
Qed.

Theorem pp_header_eq sw : pp_header sw = Ok (header_state sw).
Proof.
  unfold pp_header, preprocess, max_include_depth.
  rewrite include_lib1_h.
  - by rewrite after_header_initial.
  - apply lookup_singleton_eq.
  - set_solver.
  - apply clean_predefined.
Qed.

Lemma api_macro_eq sw :
  api_macro sw = Some (attr_tokens (switch_visibility sw)).
Proof.
  unfold api_macro. rewrite pp_header_eq. apply lookup_insert_eq.
Qed.

Lemma header_output_eq sw :
  header_output sw
  = Some (header_tokens (sw_cplusplus sw) (switch_visibility sw)).
Proof. unfold header_output. by rewrite pp_header_eq. Qed.

(** The compiler reads one prototype from the header's tokens, in C and,
    thanks to the linkage block, in C++ too. *)
Lemma parse_header_tokens cxx v :
  parse_tu cxx (header_tokens cxx v) = Some [func1_decl v].
Proof. by destruct cxx, v. Qed.

Lemma header_declarations_eq sw :
  header_declarations sw = Some [func1_decl (switch_visibility sw)].
Proof.
  unfold header_declarations. rewrite pp_header_eq.
  apply parse_header_tokens.
Qed.

(** ** Translation units that include the header *)

Lemma pp_file_unfold d fs path ls st :
  path ∉ once st → fs !! path = Some ls →
  pp_file (S d) fs path st
  = rbind (run_lines (pp_file d fs) path ls (set_conds [] st))
      (fun st' => match conds st' with
                  | [] => Ok (set_conds (conds st) st')
                  | _ :: _ => Err UnterminatedConditional
                  end).
Proof. intros Ho Hf. cbn [pp_file]. by rewrite decide_False, Hf. Qed.

Lemma lib1_in_main_fs tu :
  (<[main_path := tu]> files) !! lib1_path = Some lib1_h.
Proof. by rewrite lookup_insert_ne. Qed.

Theorem include_once_eq sw : preprocess_tu include_once sw = pp_header sw.
Proof.
  rewrite pp_header_eq.
  unfold preprocess_tu, preprocess, max_include_depth.
  rewrite (pp_file_unfold _ _ _ include_once)
    by (set_solver || apply lookup_insert_eq).
  unfold include_once.
  cbn [run_lines step cur_live set_conds conds initial_state].
  rewrite include_lib1_h
    by (apply lib1_in_main_fs || set_solver || apply clean_predefined).
  cbn [rbind]. change (set_conds [] (initial_state (predefined sw)))
    with (initial_state (predefined sw)).
  by rewrite after_header_initial.
Qed.

Theorem include_twice_eq sw : preprocess_tu include_twice sw = pp_header sw.
Proof.
  rewrite pp_header_eq.
  unfold preprocess_tu, preprocess, max_include_depth.
  rewrite (pp_file_unfold _ _ _ include_twice)
    by (set_solver || apply lookup_insert_eq).
  unfold include_twice.
  cbn [run_lines step cur_live set_conds conds initial_state].
  rewrite include_lib1_h
    by (apply lib1_in_main_fs || set_solver || apply clean_predefined).
  cbn [rbind]. change (set_conds [] (initial_state (predefined sw)))
    with (initial_state (predefined sw)).
  rewrite after_header_initial.
  change (cur_live (header_state sw)) with true. cbn iota.
  by rewrite include_again by (unfold header_state; set_solver).
Qed.

(** ** The symbolic run against evaluation

    The same facts by running the preprocessor on each of the sixteen
    settings. *)

Lemma all_switches_complete sw : sw ∈ all_switches.
Proof. destruct sw as [[] [] [] []]; compute_done. Qed.

Example export_from_cplusplus :
  header_output (Build_switches true true true true)
  = Some [Ident "extern"; StrLit "C"; Punct "{";
          Ident "__declspec"; Punct "("; Ident "dllexport"; Punct ")";
          Ident "int"; Ident "func1"; Punct "("; Ident "int"; Ident "x";
          Punct ")"; Punct ";"; Punct "}"].
Proof. vm_compute. reflexivity. Qed.

Example import_from_c :
  header_output (Build_switches true true false false)
  = Some [Ident "__declspec"; Punct "("; Ident "dllimport"; Punct ")";
          Ident "int"; Ident "func1"; Punct "("; Ident "int"; Ident "x";
          Punct ")"; Punct ";"].
Proof. vm_compute. reflexivity. Qed.

Example static_on_linux_c :
  header_output (Build_switches false true true false)
  = Some [Ident "int"; Ident "func1"; Punct "("; Ident "int"; Ident "x";
          Punct ")"; Punct ";"].
Proof. vm_compute. reflexivity. Qed.

Remark evaluation_agrees :
  forallb (λ sw, bool_decide
                   (header_output sw
                    = Some (header_tokens (sw_cplusplus sw)
                              (switch_visibility sw))))
    all_switches = true.
Proof. vm_compute. reflexivity. Qed.

(** * The contract of the header *)

(** C1. On a Windows-like target ([_WIN32] defined) the header defines [API]
    as the matrix requires, whatever [__cplusplus] is: [__declspec(dllexport)]
    when [IS_DLL] and [PKGA_LIB] are both defined, [__declspec(dllimport)]
    when [IS_DLL] is defined and [PKGA_LIB] is not, and empty when [IS_DLL]
    is not defined, regardless of [PKGA_LIB]; the prototype is declared with
    the matching visibility. *)
Theorem windows_visibility_matrix (cxx : bool) :
  (api_macro (Build_switches true true true cxx) = Some dllexport_attr
   ∧ declared_visibility (Build_switches true true true cxx)
     = Some [VisExport])
  ∧ (api_macro (Build_switches true true false cxx) = Some dllimport_attr
     ∧ declared_visibility (Build_switches true true false cxx)
       = Some [VisImport])
  ∧ (∀ pkga,
       api_macro (Build_switches true false pkga cxx) = Some []
       ∧ declared_visibility (Build_switches true false pkga cxx)
         = Some [VisDefault])
  ∧ (∀ shared defining,
       api_macro (Build_switches true shared defining cxx)
       = Some (attr_tokens (visibility_matrix true shared defining))).
Proof.
  unfold declared_visibility.
  repeat split; intros;
    by rewrite ?api_macro_eq, ?header_declarations_eq.
Qed.

(** C2. On a target that is not Windows-like ([_WIN32] not defined) the
    header defines [API] as empty and nothing stands before [int func1] in
    the output (but the linkage block opening in C++), for every setting of
    [IS_DLL], [PKGA_LIB] and [__cplusplus]. *)
Theorem other_platform_no_attribute (is_dll pkga cxx : bool) :
  api_macro (Build_switches false is_dll pkga cxx) = Some []
  ∧ header_output (Build_switches false is_dll pkga cxx)
    = Some ((if cxx then [Ident "extern"; StrLit "C"; Punct "{"] else [])
            ++ prototype_tokens ++ (if cxx then [Punct "}"] else []))
  ∧ declared_visibility (Build_switches false is_dll pkga cxx)
    = Some [VisDefault].
Proof.
  unfold declared_visibility.
  by rewrite api_macro_eq, header_output_eq, header_declarations_eq.
Qed.

(** C3. In a C++ translation unit ([__cplusplus] defined) the prototype of
    [func1] is emitted inside a matched [extern "C" { ... }] block, so it
    has C linkage and its symbol is the unmangled [func1], for every setting
    of [_WIN32], [IS_DLL] and [PKGA_LIB]. *)
Theorem cplusplus_c_linkage (win32 is_dll pkga : bool) :
  ∃ ts d,
    header_output (Build_switches win32 is_dll pkga true) = Some ts
    ∧ ts = [Ident "extern"; StrLit "C"; Punct "{"]
           ++ attr_tokens (visibility_matrix win32 is_dll pkga)
           ++ prototype_tokens ++ [Punct "}"]
    ∧ braces_matched 0 ts = true
    ∧ header_declarations (Build_switches win32 is_dll pkga true) = Some [d]
    ∧ fd_name d = "func1"
    ∧ fd_linkage d = LinkC
    ∧ link_symbol d = "func1".
Proof.
  eexists _, _. rewrite header_output_eq, header_declarations_eq.
  repeat split. by destruct win32, is_dll, pkga.
Qed.

(** What the block is for: the bare prototype in a C++ unit gets C++ linkage
    and a mangled symbol. *)
Remark bare_prototype_is_mangled :
  (λ d, (fd_linkage d, link_symbol d)) <$>
    (parse_tu true prototype_tokens ≫= head)
  = Some (LinkCxx, "_Z5func1i").
Proof. reflexivity. Qed.

(** C4. Including the header twice in one translation unit gives the same
    result as including it once (tokens, macro table, events), without any
    error: one prototype of [func1], one definition of [API], for every
    combination of the switches. *)
Theorem include_idempotent (sw : switches) :
  preprocess_tu include_twice sw = preprocess_tu include_once sw
  ∧ ∃ st,
      preprocess_tu include_twice sw = Ok st
      ∧ count_defines "API" (log st) = 1
      ∧ declarations include_twice sw
        = Some [func1_decl (switch_visibility sw)].
Proof.
  unfold declarations.
  rewrite include_twice_eq, include_once_eq, pp_header_eq.
  split; [done|]. eexists; split; [done|]. split; [done|].
  apply parse_header_tokens.
Qed.

(** Without the first line, a second inclusion repeats the prototype. *)
Remark unguarded_header_repeats :
  (λ st, out st) <$>
    match preprocess (<[lib1_path := lib1_h_unguarded]>
                        (<[main_path := include_twice]> ∅)) ∅ main_path with
    | Ok st => Some st
    | Err _ => None
    end
  = Some (prototype_tokens ++ prototype_tokens).
Proof. vm_compute. reflexivity. Qed.

(** C5. Every preprocessed output of the header declares exactly one
    function: its symbol is [func1], it takes one [int] and returns [int]. *)
Theorem one_function_declared (sw : switches) :
  ∃ d x,
    header_declarations sw = Some [d]
    ∧ fd_name d = "func1"
    ∧ link_symbol d = "func1"
    ∧ fd_params d = [(CInt, x)]
    ∧ fd_ret d = CInt.
Proof. eexists _, _. by rewrite header_declarations_eq. Qed.

(** C6. A translation unit that includes the header and calls [func1(5)],
    linked against any object file that defines
    [int func1(int x) { return x + 1; }], gets 6. *)
Theorem call_func1_returns_6 (sw : switches) (obj : gmap string cfun) :
  obj !! "func1" = Some func1_impl →
  call_func1 sw obj 5 = Some 6%Z.
Proof.
  intros Hobj. unfold call_func1, declarations.
  rewrite include_once_eq, pp_header_eq.
  cbn [header_state out]. rewrite parse_header_tokens.
  unfold call. cbn [list_find func1_decl fd_name]. rewrite decide_True by done.
  cbn [fmap option_fmap option_map fd_ret fd_params].
  rewrite decide_True by done.
  change (link_symbol _) with "func1". unfold cfun in *. by rewrite Hobj.
Qed.

Lemma call_func1_returns_6_witness :
  ({[ "func1" := func1_impl ]} : gmap string cfun) !! "func1"
    = Some func1_impl
  ∧ call_func1 (Build_switches true true false true)
      {[ "func1" := func1_impl ]} 5 = Some 6%Z.
Proof.
  split.
  - reflexivity.
  - apply call_func1_returns_6. reflexivity.
Defined.

(** C7. Preprocessing the header succeeds for every combination of the four
    switches: no line of the header is an [#error], every run ends without
    an error and with all conditionals closed. *)
Theorem preprocessing_succeeds (sw : switches) :
  is_ok (pp_header sw) = true
  ∧ (∃ st, pp_header sw = Ok st ∧ conds st = [])
  ∧ existsb is_error_line lib1_h = false.
Proof.
  rewrite pp_header_eq. split; [done|]. split; [|done]. by eexists.
Qed.

(** C8. For every combination of the switches exactly one [#define API]
    runs, and [API] is still defined when the header ends, also in the file
    that included it: no line of the header is an [#undef]. *)
Theorem api_defined_once_and_kept (sw : switches) :
  ∃ st body,
    pp_header sw = Ok st
    ∧ log st = [EvDefine "API" body]
    ∧ count_defines "API" (log st) = 1
    ∧ existsb (is_undef_of "API") (log st) = false
    ∧ macros st !! "API" = Some body
    ∧ defined "API" st = true
    ∧ existsb (is_undef_line "API") lib1_h = false
    ∧ ∃ st', preprocess_tu include_once sw = Ok st'
             ∧ macros st' !! "API" = Some body.
Proof.
  rewrite include_once_eq, pp_header_eq. eexists _, _.
  split; [done|]. split; [done|]. split; [done|]. split; [done|].
  assert (macros (header_state sw) !! "API"
          = Some (attr_tokens (switch_visibility sw))) as Hapi
    by apply lookup_insert_eq.
  split; [done|]. split.
  { unfold defined, is_defined. by rewrite Hapi. }
  split; [done|]. by eexists.
Qed.

Lemma linkage_block_present_eq sw :
  linkage_block_present sw = Some (sw_cplusplus sw).
Proof.
  unfold linkage_block_present. rewrite header_output_eq.
  by destruct (sw_cplusplus sw), (switch_visibility sw).
Qed.

(** C9. The two concerns do not interfere.  The definition of [API] and the
    visibility of the prototype are the same in two runs that differ only
    in [__cplusplus]; the linkage block is present or absent alike in two
    runs that agree on [__cplusplus]. *)
Theorem visibility_linkage_independent :
  (∀ win32 is_dll pkga cxx cxx',
     api_macro (Build_switches win32 is_dll pkga cxx)
     = api_macro (Build_switches win32 is_dll pkga cxx')
     ∧ declared_visibility (Build_switches win32 is_dll pkga cxx)
       = declared_visibility (Build_switches win32 is_dll pkga cxx'))
  ∧ (∀ win32 is_dll pkga win32' is_dll' pkga' cxx,
       linkage_block_present (Build_switches win32 is_dll pkga cxx)
       = linkage_block_present (Build_switches win32' is_dll' pkga' cxx)).
Proof.
  split; intros.
  - unfold declared_visibility.
    by rewrite !api_macro_eq, !header_declarations_eq.
  - by rewrite !linkage_block_present_eq.
Qed.

Lemma header_tokens_matched cxx v :
  braces_matched 0 (header_tokens cxx v) = true.
Proof. by destruct cxx, v. Qed.

(** C10. In a C translation unit ([__cplusplus] not defined) no linkage
    specification is emitted: the output is the replacement list chosen for
    [API] followed by the prototype of [func1], without [extern], ["C"] or
    a brace; and under every setting of the switches the braces of the
    output are matched. *)
Theorem c_unit_plain_prototype :
  (∀ win32 is_dll pkga,
     ∃ body,
       api_macro (Build_switches win32 is_dll pkga false) = Some body
       ∧ header_output (Build_switches win32 is_dll pkga false)
         = Some (body ++ prototype_tokens)
       ∧ linkage_block_present (Build_switches win32 is_dll pkga false)
         = Some false
       ∧ Forall (λ t, t ≠ Ident "extern" ∧ t ≠ StrLit "C"
                      ∧ t ≠ Punct "{" ∧ t ≠ Punct "}")
           (body ++ prototype_tokens))
  ∧ (∀ sw, ∃ ts, header_output sw = Some ts ∧ braces_matched 0 ts = true).
Proof.
  split.
  - intros. eexists.
    rewrite api_macro_eq, header_output_eq, linkage_block_present_eq.
    split; [done|]. split; [reflexivity|]. split; [done|].
    apply Forall_app; split.
    + destruct (switch_visibility _); by repeat constructor.
    + by repeat constructor.
  - intros sw. eexists. rewrite header_output_eq. split; [done|].
    apply header_tokens_matched.
Qed.

(** * Beyond the four switches *)

Lemma expand_nil (env : gmap string (list token)) : expand env [] = [].
Proof. reflexivity. Qed.

(** The header's lines in any state. *)
Ltac split_tests :=
  repeat match goal with
         | |- context [is_defined ?e ?n] => destruct (is_defined e n)
         end.

Lemma lib1_h_any_state inc self st :
  run_lines inc self lib1_h st
  = if cur_live st then header_effect self st else Ok st.
Proof.
  destruct st as [m o cs ou lg].
  unfold header_effect, chosen_visibility, lib1_h.
  destruct cs as [|[[] en ie] cs]; pp_simpl; split_tests;
    cbv [attr_tokens visibility_matrix dllexport_attr dllimport_attr];
    pp_simpl;
    try (destruct (m !! "API") as [old|];
         [destruct (decide (old = _))|]; pp_simpl; split_tests);
    rewrite ?expand_nil; same_state.
Qed.

Lemma pp_header_in_eq env :
  pp_header_in env = header_effect lib1_path (initial_state env).
Proof.
  unfold pp_header_in, preprocess, max_include_depth.
  rewrite (pp_file_unfold _ _ _ lib1_h)
    by (set_solver || apply lookup_singleton_eq).
  change (set_conds [] (initial_state env)) with (initial_state env).
  rewrite lib1_h_any_state. change (cur_live (initial_state env)) with true.
  cbv iota. unfold header_effect, do_define.
  cbn [emit set_once initial_state macros once conds out log].
  destruct (env !! "API") as [old|]; [destruct (decide (old = _))|]; done.
Qed.

Lemma pp_header_in_clean env :
  clean env → pp_header_in env = Ok (header_state_in env).
Proof.
  intros Hc. unfold pp_header_in, preprocess, max_include_depth.
  rewrite include_lib1_h;
    [|apply lookup_singleton_eq|set_solver|done].
  unfold after_header, header_state_in, initial_state.
  cbn [macros once conds out log]. by rewrite (right_id_L ∅ (∪)).
Qed.

(** X1. Under any macro table in which [API] and the header's own
    identifiers are not macros, the output, the definition of [API] and the
    declaration read from the output are fixed by which of the four switch
    names are defined; their replacement lists and all other macros play no
    part. *)
Theorem any_clean_table (env : gmap string (list token)) :
  clean env →
  ∃ st,
    pp_header_in env = Ok st
    ∧ out st = header_tokens (is_defined env "__cplusplus")
                 (chosen_visibility env)
    ∧ macros st !! "API" = Some (attr_tokens (chosen_visibility env))
    ∧ parse_tu (is_defined env "__cplusplus") (out st)
      = Some [func1_decl (chosen_visibility env)].
Proof.
  intros Hc. eexists. rewrite pp_header_in_clean by done.
  split; [done|]. split; [done|]. split; [apply lookup_insert_eq|].
  apply parse_header_tokens.
Qed.

Lemma any_clean_table_witness :
  clean table_is_dll_zero
  ∧ ∃ st,
      pp_header_in table_is_dll_zero = Ok st
      ∧ out st = header_tokens (is_defined table_is_dll_zero "__cplusplus")
                   (chosen_visibility table_is_dll_zero)
      ∧ macros st !! "API"
        = Some (attr_tokens (chosen_visibility table_is_dll_zero))
      ∧ parse_tu (is_defined table_is_dll_zero "__cplusplus") (out st)
        = Some [func1_decl (chosen_visibility table_is_dll_zero)].
Proof.
  assert (clean table_is_dll_zero) as Hc
    by (split; [reflexivity|repeat constructor]).
  exact (conj Hc (any_clean_table table_is_dll_zero Hc)).
Defined.

(** The gotcha the witness shows: [IS_DLL] defined as 0 is still defined. *)
Example is_dll_zero_selects_import :
  header_output (Build_switches true true false false)
  = (λ st, out st) <$>
      match pp_header_in table_is_dll_zero with
      | Ok st => Some st
      | Err _ => None
      end.
Proof. vm_compute. reflexivity. Qed.

(** X2. Under such a table the header adds [API] to the macro table and
    touches no other macro; it marks only itself as read once. *)
Theorem header_defines_only_api (env : gmap string (list token)) :
  clean env →
  ∃ st,
    pp_header_in env = Ok st
    ∧ (∀ n, n ≠ "API" → macros st !! n = env !! n)
    ∧ dom (macros st) = {["API"]} ∪ dom env
    ∧ once st = {[lib1_path]}
    ∧ existsb (λ e, negb (is_define_of "API" e)) (log st) = false.
Proof.
  intros Hc. eexists. rewrite pp_header_in_clean by done.
  split; [done|]. split.
  { intros n Hn. by apply lookup_insert_ne. }
  split; [apply dom_insert_L|]. done.
Qed.

Lemma header_defines_only_api_witness :
  clean table_cplusplus98
  ∧ ∃ st,
      pp_header_in table_cplusplus98 = Ok st
      ∧ (∀ n, n ≠ "API" → macros st !! n = table_cplusplus98 !! n)
      ∧ dom (macros st) = {["API"]} ∪ dom table_cplusplus98
      ∧ once st = {[lib1_path]}
      ∧ existsb (λ e, negb (is_define_of "API" e)) (log st) = false.
Proof.
  assert (clean table_cplusplus98) as Hc
    by (split; [reflexivity|repeat constructor]).
  exact (conj Hc (header_defines_only_api table_cplusplus98 Hc)).
Defined.


Lemma idents_free_plain env ts :
  header_idents_free env →
  Forall (λ t, match t with Ident n => n ∈ header_idents | _ => True end) ts →
  Forall (plain env) ts.
Proof.
  intros Hf Hts. unfold header_idents_free in Hf. rewrite Forall_forall in Hf.
  induction Hts as [|[n| | |] ts Ht _ IH]; constructor; simpl; auto.
Qed.

Lemma idents_free_delete env n :
  header_idents_free env → header_idents_free (delete n env).
Proof.
  unfold header_idents_free. intros Hf.
  eapply Forall_impl; [exact Hf|]. intros k Hk.
  by rewrite lookup_delete_None; right.
Qed.

Ltac header_tokens_plain Hf :=
  apply (idents_free_plain _ _ Hf); repeat constructor.

(** X4. An earlier definition of [API] with the very replacement list the
    header selects is accepted: the header succeeds, leaves the macro table
    as it was and emits the declaration as usual. *)
Theorem api_predefined_alike (env : gmap string (list token)) :
  header_idents_free env →
  env !! "API" = Some (attr_tokens (chosen_visibility env)) →
  pp_header_in env
  = Ok {| macros := env;
          once := {[lib1_path]};
          conds := [];
          out := header_tokens (is_defined env "__cplusplus")
                   (chosen_visibility env);
          log := [EvDefine "API" (attr_tokens (chosen_visibility env))] |}.
Proof.
  intros Hf Hapi. rewrite pp_header_in_eq. unfold header_effect, do_define.
  cbv [emit set_once initial_state macros once conds out log record_event].
  rewrite Hapi, decide_True by done.
  cbv [rbind emit macros once conds out log defined]. f_equal.
  rewrite (expand_cons env (Ident "API")), (expand_tok_macro _ _ _ Hapi).
  rewrite (expand_plain (delete "API" env))
    by (apply idents_free_plain; [by apply idents_free_delete|];
        destruct (chosen_visibility env); repeat constructor).
  rewrite !(expand_plain env) by header_tokens_plain Hf.
  rewrite (right_id_L ∅ (∪)). unfold header_tokens.
  by destruct (is_defined env "__cplusplus"); rewrite <- ?app_assoc.
Qed.

Lemma api_predefined_alike_witness :
  header_idents_free table_api_empty
  ∧ table_api_empty !! "API"
    = Some (attr_tokens (chosen_visibility table_api_empty))
  ∧ pp_header_in table_api_empty
    = Ok {| macros := table_api_empty;
            once := {[lib1_path]};
            conds := [];
            out := header_tokens (is_defined table_api_empty "__cplusplus")
                     (chosen_visibility table_api_empty);
            log := [EvDefine "API"
                      (attr_tokens (chosen_visibility table_api_empty))] |}.
Proof.
  assert (header_idents_free table_api_empty) as Hf by repeat constructor.
  assert (table_api_empty !! "API"
          = Some (attr_tokens (chosen_visibility table_api_empty))) as Hapi
    by reflexivity.
  exact (conj Hf (conj Hapi (api_predefined_alike table_api_empty Hf Hapi))).
Defined.

Lemma includes_skipped d fs self n st :
  lib1_path ∈ once st → cur_live st = true →
  run_lines (pp_file (S d) fs) self (repeated_includes n) st = Ok st.
Proof.
  intros Ho Hl. induction n as [|n IH]; [done|].
  unfold repeated_includes in *. cbn [replicate run_lines step].
  by rewrite Hl, include_again.
Qed.

(** X5. Including the header any number of times, at least once, gives
    what the header gives alone: every inclusion after the first is
    skipped. *)
Theorem include_many_times (n : nat) (sw : switches) :
  preprocess_tu (repeated_includes (S n)) sw = pp_header sw.
Proof.
  rewrite pp_header_eq.
  unfold preprocess_tu, preprocess, max_include_depth.
  rewrite (pp_file_unfold _ _ _ (repeated_includes (S n)))
    by (set_solver || apply lookup_insert_eq).
  change (repeated_includes (S n))
    with (DInclude lib1_path :: repeated_includes n).
  cbn [run_lines step cur_live set_conds conds initial_state].
  rewrite include_lib1_h
    by (apply lib1_in_main_fs || set_solver || apply clean_predefined).
  cbn [rbind].
  change (set_conds [] (initial_state (predefined sw)))
    with (initial_state (predefined sw)).
  rewrite after_header_initial.
  by rewrite includes_skipped by (done || unfold header_state; set_solver).
Qed.

(** X6. Lines 2 to 26 can be read twice: where [#pragma once] is not
    honoured, a second inclusion repeats the same definition of [API], which
    is accepted, and the same prototype; no error arises and two equal
    declarations are read. *)
Theorem unguarded_twice_accepted (sw : switches) :
  ∃ st,
    unguarded_twice sw = Ok st
    ∧ out st = header_tokens (sw_cplusplus sw) (switch_visibility sw)
               ++ header_tokens (sw_cplusplus sw) (switch_visibility sw)
    ∧ macros st = macros (header_state sw)
    ∧ count_defines "API" (log st) = 2
    ∧ parse_tu (sw_cplusplus sw) (out st)
      = Some [func1_decl (switch_visibility sw);
              func1_decl (switch_visibility sw)].
Proof.
  destruct sw as [[] [] [] []]; eexists;
    (split; [vm_compute; reflexivity|]); repeat split; vm_compute;
    reflexivity.
Qed.


